(** * Recruitment dashboard: the filter, the KPI and the two aggregations

    A shallow embedding of the computational part of [app.py]: the sidebar
    filter loop that builds [filtered], the KPI function [fulfillment], the
    grouped counts [principle_chart] with their display [order], and the
    per-region table built inside [regional_chart].

    Conventions of the embedding.
    - A table cell is [option string]: [None] is the missing value (NaN) that
      pandas produces for a blank spreadsheet cell, [Some s] is a text value.
    - A data frame is the list of its rows, in row order.
    - Counts are natural numbers.  The quotients that pandas computes in
      double precision are computed here over the rationals [Q]; rounding
      of the binary representation is not part of the model.
    - pandas itself is not part of the repository.  Its operations used by
      the program ([==] on a column, boolean row selection, [groupby] with
      its defaults [sort=True] and [dropna=True], [size], [sum], [unstack],
      [sort_values]) are written out as list functions below. *)

From Stdlib Require Import List String Ascii Bool Arith ZArith QArith Lia Lqa.
From Stdlib Require Import Permutation Sorted OrderedTypeEx.
Import ListNotations.

Local Open Scope string_scope.
Local Open Scope nat_scope.

(** ** Data model *)

Inductive column : Type :=
| Agency
| Principle
| Area
| Job_Title
| Regional
| Status_Quota
| Recruitment_Status.

Definition cell : Type := option string.

Record Row : Type := mkRow {
  agency : cell;
  principle : cell;
  area : cell;
  job_title : cell;
  regional : cell;
  status_quota : cell;
  recruitment_status : cell
}.

Definition DataFrame : Type := list Row.

(** [get r c] is the cell of row [r] in column [c] (pandas [data[c]], row-wise). *)
Definition get (r : Row) (c : column) : cell :=
  match c with
  | Agency => agency r
  | Principle => principle r
  | Area => area r
  | Job_Title => job_title r
  | Regional => regional r
  | Status_Quota => status_quota r
  | Recruitment_Status => recruitment_status r
  end.

(** Element-wise [column == val]: a missing cell compares unequal to
    every value. *)
Definition cell_eq (c : cell) (val : string) : bool :=
  match c with
  | Some s => String.eqb s val
  | None => false
  end.

Definition present (c : cell) : bool :=
  match c with
  | Some _ => true
  | None => false
  end.

(** ** Sidebar filter *)

(** The six values returned by the select boxes. *)
Record Selection : Type := mkSelection {
  sel_agency : string;
  sel_principle : string;
  sel_area : string;
  sel_job_title : string;
  sel_regional : string;
  sel_status_quota : string
}.

(** The dictionary [filters], as its items in insertion order. *)
Definition filters (s : Selection) : list (column * string) :=
  [ (Agency, sel_agency s);
    (Principle, sel_principle s);
    (Area, sel_area s);
    (Job_Title, sel_job_title s);
    (Regional, sel_regional s);
    (Status_Quota, sel_status_quota s) ].

(** One iteration of the loop
    [if val != "All": filtered = filtered[filtered[col] == val]]. *)
Definition filter_step (acc : DataFrame) (item : column * string) : DataFrame :=
  let (col, val) := item in
  if negb (String.eqb val "All")
  then filter (fun r => cell_eq (get r col) val) acc
  else acc.

(** [filtered = df.copy()] followed by the loop over [filters.items()]. *)
Definition filtered (df : DataFrame) (items : list (column * string)) : DataFrame :=
  fold_left filter_step items df.

Definition all_All : Selection :=
  mkSelection "All" "All" "All" "All" "All" "All".

(** The retention rule in the words of the specification: every dimension
    that is not set to "All" holds exactly the selected value. *)
Definition Matches (items : list (column * string)) (r : Row) : Prop :=
  forall col val, In (col, val) items -> val <> "All" -> get r col = Some val.

Definition matchesb (items : list (column * string)) (r : Row) : bool :=
  forallb (fun item : column * string =>
             let (col, val) := item in
             String.eqb val "All" || cell_eq (get r col) val) items.

(** ** KPI *)

(** [(data["Recruitment Status"] == s).sum()] *)
Definition status_count (s : string) (data : DataFrame) : nat :=
  List.length (filter (fun r => cell_eq (recruitment_status r) s) data).

Definition Qnat (n : nat) : Q := inject_Z (Z.of_nat n).

(** [return (1-(r / (r+o)) * 100) if o > 0 else 0].  In Python [*] binds
    tighter than binary [-], so the expression is [1 - ((r/(r+o)) * 100)]. *)
Definition fulfillment (data : DataFrame) : Q :=
  let o := status_count "OPEN" data in
  let r := status_count "RECRUIT" data in
  if 0 <? o then (1 - (Qnat r / Qnat (r + o)) * 100)%Q else 0%Q.

(** The formula of the specification, for comparison with [fulfillment]. *)
Definition spec_fulfillment (o r : nat) : Q :=
  ((1 - Qnat r / Qnat (o + r)) * 100)%Q.

(** ** Grouped counts *)

(** A two-level group key, as produced by [groupby([c1, c2])]. *)
Definition key2 : Type := (string * string)%type.

(** Tuples compare lexicographically, strings by code point. *)
Definition compare2 (a b : key2) : comparison :=
  match String.compare (fst a) (fst b) with
  | Eq => String.compare (snd a) (snd b)
  | c => c
  end.

(** Running totals per key, the keys kept in ascending order:
    [add cmp k n acc] adds [n] to the entry of [k], creating it if needed. *)
Fixpoint add {K : Type} (cmp : K -> K -> comparison) (k : K) (n : nat)
  (acc : list (K * nat)) : list (K * nat) :=
  match acc with
  | [] => [(k, n)]
  | (k', m) :: rest =>
      match cmp k k' with
      | Eq => (k', m + n) :: rest
      | Lt => (k, n) :: acc
      | Gt => (k', m) :: add cmp k n rest
      end
  end.

(** The key of a row; a row with a missing key cell belongs to no group
    ([dropna=True]). *)
Definition group_key (c1 c2 : column) (r : Row) : option key2 :=
  match get r c1, get r c2 with
  | Some a, Some b => Some (a, b)
  | _, _ => None
  end.

(** [data.groupby([c1, c2]).size()], as (key, count) entries in key order. *)
Definition size_step (c1 c2 : column) (acc : list (key2 * nat)) (r : Row)
  : list (key2 * nat) :=
  match group_key c1 c2 r with
  | Some k => add compare2 k 1 acc
  | None => acc
  end.

Definition groupby_size (c1 c2 : column) (data : DataFrame) : list (key2 * nat) :=
  fold_left (size_step c1 c2) data [].

(** [principle_chart]: the rows (Principle, Recruitment Status, Count). *)
Definition principle_chart (data : DataFrame) : list (key2 * nat) :=
  groupby_size Principle Recruitment_Status data.

(** [chart.groupby(level)["Count"].sum()], in key order. *)
Definition groupby_sum (level : key2 -> string) (chart : list (key2 * nat))
  : list (string * nat) :=
  fold_left (fun acc e => add String.compare (level (fst e)) (snd e) acc) chart [].

(** [sort_values(ascending=False)]: pandas reverses the values, sorts them
    ascending and reverses the outcome.  The ascending sort is written as
    an insertion sort; where it puts equal totals is a choice of this model. *)
Fixpoint insert_asc (x : string * nat) (l : list (string * nat)) : list (string * nat) :=
  match l with
  | [] => [x]
  | y :: l' => if snd x <? snd y then x :: l else y :: insert_asc x l'
  end.

Definition sort_asc (l : list (string * nat)) : list (string * nat) :=
  fold_left (fun acc x => insert_asc x acc) l [].

Definition sort_values_desc (l : list (string * nat)) : list (string * nat) :=
  rev (sort_asc (rev l)).

(** [order]: the index of the sorted per-Principle sums. *)
Definition order (data : DataFrame) : list string :=
  map fst (sort_values_desc (groupby_sum fst (principle_chart data))).

(** Sum of the counts of the emitted entries whose key satisfies [p]. *)
Fixpoint weight {K : Type} (p : K -> bool) (acc : list (K * nat)) : nat :=
  match acc with
  | [] => 0
  | (k, n) :: rest => (if p k then n else 0) + weight p rest
  end.

(** Total of the counts that [principle_chart] emits for group [g]. *)
Definition group_total (data : DataFrame) (g : string) : nat :=
  weight (fun k : key2 => String.eqb (fst k) g) (principle_chart data).

(** ** Per-region fulfillment *)

(** A double: not-a-number, infinity, or a finite value. *)
Inductive float : Type :=
| NaN
| Inf
| Fin (q : Q).

(** What a computation yields: a value, or one of the two exceptions that
    [regional_chart] can raise. *)
Inductive outcome (A : Type) : Type :=
| Ok (a : A)
| ZeroDivisionError
| ValueError.
Arguments Ok {A} a.
Arguments ZeroDivisionError {A}.
Arguments ValueError {A}.

(** What [temp.get(name, 0)] returns: a column, or the plain integer default. *)
Inductive operand (A : Type) : Type :=
| Scalar (a : A)
| Series (l : list A).
Arguments Scalar {A} a.
Arguments Series {A} l.

(** Element-wise integer division inside a Series: dividing by zero gives
    NaN or infinity and raises nothing. *)
Definition truediv (n d : nat) : float :=
  if d =? 0 then (if n =? 0 then NaN else Inf) else Fin (Qnat n / Qnat d).

Definition times (x : float) (c : Q) : float :=
  match x with
  | Fin q => Fin (q * c)
  | other => other
  end.

Definition op_add (x y : operand nat) : operand nat :=
  match x, y with
  | Scalar a, Scalar b => Scalar (a + b)
  | Scalar a, Series l => Series (map (fun v => a + v) l)
  | Series l, Scalar b => Series (map (fun v => v + b) l)
  | Series l1, Series l2 => Series (map (fun p => fst p + snd p) (combine l1 l2))
  end.

(** [x / y]: between two plain integers Python raises on a zero divisor. *)
Definition op_div (x y : operand nat) : outcome (operand float) :=
  match x, y with
  | Scalar a, Scalar b =>
      if b =? 0 then ZeroDivisionError else Ok (Scalar (Fin (Qnat a / Qnat b)))
  | Scalar a, Series l => Ok (Series (map (fun d => truediv a d) l))
  | Series l, Scalar b => Ok (Series (map (fun n => truediv n b) l))
  | Series l1, Series l2 =>
      Ok (Series (map (fun p => truediv (fst p) (snd p)) (combine l1 l2)))
  end.

Definition op_times (x : operand float) (c : Q) : operand float :=
  match x with
  | Scalar a => Scalar (times a c)
  | Series l => Series (map (fun v => times v c) l)
  end.

(** Count of key [k] after [unstack(fill_value=0)]. *)
Fixpoint lookup (k : key2) (sizes : list (key2 * nat)) : nat :=
  match sizes with
  | [] => 0
  | (k', n) :: rest =>
      match compare2 k k' with
      | Eq => n
      | _ => lookup k rest
      end
  end.

(** Row labels and column labels of the unstacked table. *)
Definition index_of (sizes : list (key2 * nat)) : list string :=
  map fst (groupby_sum fst sizes).

Definition columns_of (sizes : list (key2 * nat)) : list string :=
  map fst (groupby_sum snd sizes).

(** [temp.get(name, 0)] *)
Definition temp_get (sizes : list (key2 * nat)) (name : string) : operand nat :=
  if existsb (String.eqb name) (columns_of sizes)
  then Series (map (fun g => lookup (g, name) sizes) (index_of sizes))
  else Scalar 0.

(** Assignment of a new column: a scalar is repeated on every row. *)
Definition assign (idx : list string) (v : operand float) : list (string * float) :=
  match v with
  | Scalar a => map (fun g => (g, a)) idx
  | Series l => combine idx l
  end.

(** The table [temp] of [regional_chart], reduced to its columns
    "Regional" and "Fulfillment %".  [reset_index] inserts the row labels
    as a column named "Regional" and raises when the unstacked table
    already has a column of that name, that is when "Regional" occurs as
    a status; this happens before the division. *)
Definition regional_chart (data : DataFrame) : outcome (list (string * float)) :=
  let sizes := groupby_size Regional Recruitment_Status data in
  if existsb (String.eqb "Regional") (columns_of sizes) then ValueError
  else
    let recruit := temp_get sizes "RECRUIT" in
    let open := temp_get sizes "OPEN" in
    match op_div recruit (op_add open recruit) with
    | Ok ratio => Ok (assign (index_of sizes) (op_times ratio 100))
    | ZeroDivisionError => ZeroDivisionError
    | ValueError => ValueError
    end.

(** Rows of group [g] (column [c]) whose status is [s]. *)
Definition group_status_count (c : column) (g s : string) (data : DataFrame) : nat :=
  List.length (filter (fun r => cell_eq (get r c) g && cell_eq (recruitment_status r) s) data).

(** ** Select boxes *)

(** [column.dropna()] on the cells of a column. *)
Definition dropna (cells : list cell) : list string :=
  flat_map (fun c : cell => match c with Some v => [v] | None => [] end) cells.

(** [unique()]: the distinct values in order of first appearance. *)
Fixpoint unique_from (seen : list string) (l : list string) : list string :=
  match l with
  | [] => []
  | x :: l' =>
      if existsb (String.eqb x) seen then unique_from seen l'
      else x :: unique_from (x :: seen) l'
  end.

Definition unique (l : list string) : list string := unique_from [] l.

(** Python [sorted] on strings, written as a stable insertion sort. *)
Fixpoint insert_str (x : string) (l : list string) : list string :=
  match l with
  | [] => [x]
  | y :: l' => if String.ltb x y then x :: l else y :: insert_str x l'
  end.

Definition sorted (l : list string) : list string :=
  fold_left (fun acc x => insert_str x acc) l [].

(** [options = ["All"] + sorted(df[column].dropna().unique())] in
    [select_filter]. *)
Definition options (df : DataFrame) (column_ : column) : list string :=
  "All" :: sorted (unique (dropna (map (fun r => get r column_) df))).

(** ** Agency sub-populations *)

(** [amk = filtered[filtered["Agency"] == "AMK"]] *)
Definition amk (view : DataFrame) : DataFrame :=
  filter (fun r => cell_eq (agency r) "AMK") view.

(** [akp = filtered[filtered["Agency"] == "AKP"]] *)
Definition akp (view : DataFrame) : DataFrame :=
  filter (fun r => cell_eq (agency r) "AKP") view.

(** ** Chart width *)

(** [num_principle = len(order)] *)
Definition num_principle (data : DataFrame) : nat :=
  List.length (order data).

(** [chart_width = max(1600, num_principle * 140)] *)
Definition chart_width (data : DataFrame) : nat :=
  Nat.max 1600 (num_principle data * 140).

(** Strings in ascending order, equal neighbours allowed. *)
Definition string_le (a b : string) : Prop := String.compare a b <> Gt.

(** Some row that has a region carries the text "Regional" as its status. *)
Definition status_named_Regional (data : DataFrame) : Prop :=
  exists r, In r data /\ present (regional r) = true
            /\ recruitment_status r = Some "Regional".

(** The status is one of the two that the KPI counts. *)
Definition counted_status (r : Row) : bool :=
  cell_eq (recruitment_status r) "OPEN" || cell_eq (recruitment_status r) "RECRUIT".

(** A percentage that is undefined or lies between 0 and 100. *)
Definition in_range (p : float) : Prop :=
  match p with
  | NaN => True
  | Inf => False
  | Fin q => (0 <= q /\ q <= 100)%Q
  end.

(** ** Notions used in the statements *)

(** Keys in strictly ascending order. *)
Definition key_lt {K : Type} (cmp : K -> K -> comparison) (a b : K) : Prop :=
  cmp a b = Lt.

Definition keys_ascending {K : Type} (cmp : K -> K -> comparison)
  (acc : list (K * nat)) : Prop :=
  StronglySorted (key_lt cmp) (map fst acc).

(** Sum of all emitted counts. *)
Definition total {K : Type} (acc : list (K * nat)) : nat :=
  weight (fun _ => true) acc.

(** The key is the pair (g, s). *)
Definition key_is (g s : string) (k : key2) : bool :=
  String.eqb (fst k) g && String.eqb (snd k) s.

(** The row has a key, and the key satisfies [p]. *)
Definition selects (c1 c2 : column) (p : key2 -> bool) (r : Row) : bool :=
  match group_key c1 c2 r with
  | Some k => p k
  | None => false
  end.

(** Both key cells of a row are present. *)
Definition has_key (c1 c2 : column) (r : Row) : bool :=
  present (get r c1) && present (get r c2).

(** The per-group percentage in the words of the specification:
    undefined on a zero denominator, else recruit / (open + recruit) * 100. *)
Definition percentage (o r : nat) : float :=
  if o + r =? 0 then NaN else Fin (Qnat r / Qnat (o + r) * 100).

(** Every group of the subset is reported, with the percentage of the
    specification. *)
Definition every_group_reported (data : DataFrame) : Prop :=
  forall g, (exists r, In r data /\ regional r = Some g) ->
  exists temp, regional_chart data = Ok temp
    /\ In (g, percentage (group_status_count Regional g "OPEN" data)
                         (group_status_count Regional g "RECRUIT" data)) temp.

(** Rows of Principle [g] that carry a Recruitment Status. *)
Definition group_rows (data : DataFrame) (g : string) : nat :=
  List.length (filter (fun r => cell_eq (principle r) g && present (recruitment_status r)) data).

(** Totals in descending order along a list of groups. *)
Definition descending (f : string -> nat) (groups : list string) : Prop :=
  StronglySorted (fun g h => f h <= f g) groups.

(** ** Sample data *)

Definition row (ag pr re st : string) : Row :=
  mkRow (Some ag) (Some pr) None None (Some re) None (Some st).

Definition sample10 : DataFrame :=
  [ row "AMK" "P1" "West" "OPEN"; row "AMK" "P1" "West" "RECRUIT";
    row "AKP" "P2" "East" "OPEN"; row "AMK" "P2" "East" "OPEN";
    row "AMK" "P1" "West" "RECRUIT"; row "AKP" "P3" "East" "OPEN";
    row "AMK" "P3" "North" "RECRUIT"; row "AMK" "P2" "West" "OPEN";
    row "AKP" "P2" "East" "RECRUIT"; row "AMK" "P1" "North" "OPEN" ].

Definition row_without_agency : Row :=
  mkRow None (Some "P1") None None (Some "West") None (Some "OPEN").

Definition five_recruit : DataFrame :=
  repeat (row "AKP" "P4" "South" "RECRUIT") 5.

Definition sample11 : DataFrame :=
  (sample10 ++ [row "AKP" "P4" "South" "RECRUIT"])%list.

Definition row_without_principle : Row :=
  mkRow (Some "AMK") None None None (Some "West") None (Some "OPEN").

Definition row_without_status (re : string) : Row :=
  mkRow (Some "AMK") (Some "P1") None None (Some re) None None.

Definition east_open_west_blank : DataFrame :=
  [ row "AMK" "P1" "East" "OPEN"; row_without_status "West" ].

Definition west_on_hold : DataFrame :=
  [ row "AMK" "P1" "West" "HOLD" ].

(** * Properties *)

(** ** Filter *)

Lemma filter_twice {A : Type} (p q : A -> bool) (l : list A) :
  filter q (filter p l) = filter (fun x => p x && q x) l.
Proof.
  induction l as [|x l IH]; simpl; [reflexivity|].
  destruct (p x); simpl; [destruct (q x)|]; now rewrite IH.
Qed.

Lemma filter_step_filter (item : column * string) (df : DataFrame) :
  filter_step df item = filter (matchesb [item]) df.
Proof.
  destruct item as [col val]; unfold filter_step, matchesb; simpl.
  destruct (String.eqb val "All"); simpl.
  - induction df as [|r df IH]; simpl; [reflexivity|]. now rewrite <- IH.
  - apply filter_ext. intros r. now rewrite andb_true_r.
Qed.

Lemma filtered_as_filter (items : list (column * string)) (df : DataFrame) :
  filtered df items = filter (matchesb items) df.
Proof.
  unfold filtered. revert df.
  induction items as [|item items IH]; intros df; simpl.
  - induction df as [|r df IHd]; simpl; [reflexivity|]. now rewrite <- IHd.
  - rewrite IH, filter_step_filter, filter_twice.
    apply filter_ext. intros r. unfold matchesb; simpl.
    now rewrite andb_true_r.
Qed.

Lemma cell_eq_Some (c : cell) (val : string) :
  cell_eq c val = true <-> c = Some val.
Proof.
  destruct c as [s|]; simpl.
  - rewrite String.eqb_eq. split; [now intros ->|now intros [= ->]].
  - split; discriminate.
Qed.

Lemma matchesb_Matches (items : list (column * string)) (r : Row) :
  matchesb items r = true <-> Matches items r.
Proof.
  unfold matchesb, Matches. rewrite forallb_forall. split.
  - intros H col val Hin Hne. specialize (H _ Hin). simpl in H.
    apply orb_true_iff in H. destruct H as [H|H].
    + apply String.eqb_eq in H. contradiction.
    + now apply cell_eq_Some.
  - intros H [col val] Hin. apply orb_true_iff.
    destruct (String.eqb_spec val "All") as [->|Hne]; [now left|right].
    apply cell_eq_Some. now apply H.
Qed.

(** C5: with every one of the six dimensions set to "All", the filter loop
    returns the table it was given, unchanged. *)
Theorem filtered_all_All_identity (df : DataFrame) (sel : Selection) :
  Forall (fun item : column * string => snd item = "All") (filters sel) ->
  filtered df (filters sel) = df.
Proof.
  intros Hall. unfold filtered.
  induction (filters sel) as [|[col val] items IH]; simpl; [reflexivity|].
  inversion Hall as [|item l Hval Hrest]; subst. simpl in Hval. subst val.
  simpl. now apply IH.
Qed.

Lemma filtered_all_All_identity_witness :
  filtered sample10 (filters all_All) = sample10.
Proof.
  apply (filtered_all_All_identity sample10 all_All).
  repeat constructor.
Defined.

(** C6: the filtered view consists of exactly the rows of the table that
    hold the selected value in every dimension not set to "All" (exact,
    case-sensitive equality, all constraints at once), in the order of the
    table; it may be empty.  On the sample table with 7 "AMK" rows and 3
    "AKP" rows, selecting Agency "AMK" returns the 7 "AMK" rows in source
    order, and a lower-case "amk" does not match. *)
Theorem filtered_retains_exact_matches (df : DataFrame) (sel : Selection) :
  filtered df (filters sel) = filter (matchesb (filters sel)) df
  /\ (forall r, matchesb (filters sel) r = true <-> Matches (filters sel) r)
  /\ (forall r, In r (filtered df (filters sel)) <-> In r df /\ Matches (filters sel) r)
  /\ filtered sample10 (filters (mkSelection "AMK" "All" "All" "All" "All" "All"))
     = [ row "AMK" "P1" "West" "OPEN"; row "AMK" "P1" "West" "RECRUIT";
         row "AMK" "P2" "East" "OPEN"; row "AMK" "P1" "West" "RECRUIT";
         row "AMK" "P3" "North" "RECRUIT"; row "AMK" "P2" "West" "OPEN";
         row "AMK" "P1" "North" "OPEN" ]
  /\ filtered sample10 (filters (mkSelection "amk" "All" "All" "All" "All" "All")) = [].
Proof.
  split; [apply filtered_as_filter|].
  split; [intros r; apply matchesb_Matches|].
  split; [|split; reflexivity].
  intros r. rewrite filtered_as_filter, filter_In, matchesb_Matches. reflexivity.
Qed.

(** C10: when some dimension is set to a specific value, no row whose cell
    in that dimension is missing survives the filter. *)
Theorem filtered_excludes_missing (df : DataFrame) (sel : Selection)
  (col : column) (val : string) (r : Row) :
  In (col, val) (filters sel) -> val <> "All" -> get r col = None ->
  ~ In r (filtered df (filters sel)).
Proof.
  intros Hin Hne Hnone Hr.
  rewrite filtered_as_filter, filter_In, matchesb_Matches in Hr.
  destruct Hr as [_ Hm]. specialize (Hm col val Hin Hne). congruence.
Qed.

Lemma filtered_excludes_missing_witness :
  ~ In row_without_agency
      (filtered (row_without_agency :: sample10)
                (filters (mkSelection "AMK" "All" "All" "All" "All" "All"))).
Proof.
  apply (filtered_excludes_missing _ _ Agency "AMK").
  - simpl. left. reflexivity.
  - discriminate.
  - reflexivity.
Defined.

(** ** KPI *)

Lemma Qnat_pos (n : nat) : 0 < n -> (0 < Qnat n)%Q.
Proof.
  intros H. unfold Qnat. change 0%Q with (inject_Z 0).
  rewrite <- Zlt_Qlt. lia.
Qed.

Lemma Qnat_nonneg (n : nat) : (0 <= Qnat n)%Q.
Proof.
  unfold Qnat. change 0%Q with (inject_Z 0). rewrite <- Zle_Qle. lia.
Qed.

Lemma Qnat_plus (a b : nat) : (Qnat (a + b) == Qnat a + Qnat b)%Q.
Proof. unfold Qnat. now rewrite Nat2Z.inj_add, inject_Z_plus. Qed.

Lemma Qnat_le (a b : nat) : a <= b -> (Qnat a <= Qnat b)%Q.
Proof. intros H. unfold Qnat. rewrite <- Zle_Qle. lia. Qed.

(** The value computed on the branch [o > 0]. *)
Lemma fulfillment_open (data : DataFrame) :
  0 < status_count "OPEN" data ->
  fulfillment data
  = (1 - (Qnat (status_count "RECRUIT" data)
          / Qnat (status_count "RECRUIT" data + status_count "OPEN" data)) * 100)%Q.
Proof.
  intros H. unfold fulfillment.
  apply Nat.ltb_lt in H. now rewrite H.
Qed.

(** The recruited fraction grows with the number of recruits. *)
Lemma ratio_monotone (o r1 r2 : nat) :
  0 < o -> r1 <= r2 ->
  (Qnat r1 / Qnat (r1 + o) <= Qnat r2 / Qnat (r2 + o))%Q.
Proof.
  intros Ho Hr.
  assert (H1 : (0 < Qnat (r1 + o))%Q) by (apply Qnat_pos; lia).
  assert (H2 : (0 < Qnat (r2 + o))%Q) by (apply Qnat_pos; lia).
  apply Qle_shift_div_r; [exact H1|].
  setoid_replace (Qnat r2 / Qnat (r2 + o) * Qnat (r1 + o))%Q
    with (Qnat r2 * Qnat (r1 + o) / Qnat (r2 + o))%Q
    by (field; intros E; rewrite E in H2; now apply Qlt_irrefl in H2).
  apply Qle_shift_div_l; [exact H2|].
  unfold Qnat. rewrite <- !inject_Z_mult, <- Zle_Qle. nia.
Qed.

(** C1: on a subset with 6 OPEN and 4 RECRUIT rows the specification asks
    for (1 - 4/10) * 100 = 60; the expression of the program evaluates to
    1 - (4/10) * 100 = -39. *)
Theorem fulfillment_six_open_four_recruit (data : DataFrame) :
  status_count "OPEN" data = 6 -> status_count "RECRUIT" data = 4 ->
  (fulfillment data == -39)%Q
  /\ (spec_fulfillment 6 4 == 60)%Q
  /\ ~ (fulfillment data == spec_fulfillment 6 4)%Q.
Proof.
  intros Ho Hr.
  assert (E : (fulfillment data == -39)%Q).
  { rewrite fulfillment_open by (rewrite Ho; lia). rewrite Ho, Hr. reflexivity. }
  split; [exact E|]. split; [reflexivity|].
  rewrite E. discriminate.
Qed.

Lemma fulfillment_six_open_four_recruit_witness :
  (fulfillment sample10 == -39)%Q
  /\ (spec_fulfillment 6 4 == 60)%Q
  /\ ~ (fulfillment sample10 == spec_fulfillment 6 4)%Q.
Proof.
  apply (fulfillment_six_open_four_recruit sample10); reflexivity.
Defined.

(** C2: the value returned by [fulfillment] leaves the interval [0, 100]:
    it is negative as soon as there is an OPEN row and the OPEN rows are
    fewer than 99 times the RECRUIT rows. *)
Theorem fulfillment_negative (data : DataFrame) :
  0 < status_count "OPEN" data ->
  status_count "OPEN" data < 99 * status_count "RECRUIT" data ->
  (fulfillment data < 0)%Q.
Proof.
  intros Ho Hlt. rewrite fulfillment_open by exact Ho.
  set (o := status_count "OPEN" data) in *.
  set (r := status_count "RECRUIT" data) in *.
  assert (Hd : (0 < Qnat (r + o))%Q) by (apply Qnat_pos; lia).
  assert (H1 : (1 < Qnat r / Qnat (r + o) * 100)%Q).
  { setoid_replace (Qnat r / Qnat (r + o) * 100)%Q
      with (Qnat r * 100 / Qnat (r + o))%Q
      by (field; intros E; rewrite E in Hd; now apply Qlt_irrefl in Hd).
    apply Qlt_shift_div_l; [exact Hd|].
    unfold Qnat. change 100%Q with (inject_Z 100). change 1%Q with (inject_Z 1).
    rewrite <- !inject_Z_mult, <- Zlt_Qlt. lia. }
  apply (Qplus_lt_l _ _ (Qnat r / Qnat (r + o) * 100)).
  ring_simplify. now rewrite Qmult_comm.
Qed.

Lemma fulfillment_negative_witness : (fulfillment sample10 < 0)%Q.
Proof.
  apply (fulfillment_negative sample10); vm_compute; lia.
Defined.

(** C3: when the subset has no OPEN row, [fulfillment] returns exactly 0,
    however many RECRUIT rows there are; this covers the empty subset. *)
Theorem fulfillment_zero_without_open (data : DataFrame) :
  status_count "OPEN" data = 0 -> fulfillment data = 0%Q.
Proof.
  intros H. unfold fulfillment. now rewrite H.
Qed.

Lemma fulfillment_zero_without_open_witness :
  fulfillment five_recruit = 0%Q /\ fulfillment [] = 0%Q.
Proof.
  split.
  - apply (fulfillment_zero_without_open five_recruit). reflexivity.
  - apply (fulfillment_zero_without_open []). reflexivity.
Defined.

(** C8: with the number of OPEN rows fixed and positive, more RECRUIT rows
    never give a larger [fulfillment]. *)
Theorem fulfillment_decreasing_in_recruit (d1 d2 : DataFrame) :
  0 < status_count "OPEN" d1 ->
  status_count "OPEN" d2 = status_count "OPEN" d1 ->
  status_count "RECRUIT" d1 <= status_count "RECRUIT" d2 ->
  (fulfillment d2 <= fulfillment d1)%Q.
Proof.
  intros Ho Heq Hr.
  rewrite (fulfillment_open d1) by exact Ho.
  rewrite (fulfillment_open d2) by (rewrite Heq; exact Ho).
  rewrite Heq.
  apply Qplus_le_r. apply Qopp_le_compat.
  apply Qmult_le_compat_r; [|discriminate].
  now apply ratio_monotone.
Qed.

Lemma fulfillment_decreasing_in_recruit_witness :
  (fulfillment sample11 <= fulfillment sample10)%Q.
Proof.
  apply (fulfillment_decreasing_in_recruit sample10 sample11); vm_compute; lia.
Defined.

(** ** Running totals *)

Section RunningTotals.
Context {K : Type} (cmp : K -> K -> comparison).
Hypothesis cmp_eq : forall a b, cmp a b = Eq -> a = b.
Hypothesis cmp_refl : forall a, cmp a a = Eq.
Hypothesis cmp_antisym : forall a b, cmp a b = CompOpp (cmp b a).
Hypothesis cmp_trans : forall a b c, cmp a b = Lt -> cmp b c = Lt -> cmp a c = Lt.

Lemma weight_add (p : K -> bool) (k : K) (n : nat) (acc : list (K * nat)) :
  weight p (add cmp k n acc) = (if p k then n else 0) + weight p acc.
Proof.
  induction acc as [|[k' m] rest IH]; simpl; [reflexivity|].
  destruct (cmp k k') eqn:E; simpl.
  - apply cmp_eq in E. subst k'. destruct (p k); lia.
  - reflexivity.
  - rewrite IH. lia.
Qed.

Lemma add_positive (k : K) (n : nat) (acc : list (K * nat)) :
  0 < n ->
  Forall (fun e => 0 < snd e) acc ->
  Forall (fun e => 0 < snd e) (add cmp k n acc).
Proof.
  intros Hn. induction acc as [|[k' m] rest IH]; intros Hacc; simpl.
  - constructor; [exact Hn|constructor].
  - inversion Hacc as [|e l Hm Hrest]; subst; simpl in Hm.
    destruct (cmp k k'); constructor; simpl; auto; lia.
Qed.

Lemma add_keys (k x : K) (n : nat) (acc : list (K * nat)) :
  In x (map fst (add cmp k n acc)) <-> x = k \/ In x (map fst acc).
Proof.
  induction acc as [|[k' m] rest IH]; simpl.
  - intuition.
  - destruct (cmp k k') eqn:E; simpl.
    + apply cmp_eq in E. subst k'. intuition.
    + intuition.
    + rewrite IH. intuition.
Qed.

Lemma add_ascending (k : K) (n : nat) (acc : list (K * nat)) :
  keys_ascending cmp acc -> keys_ascending cmp (add cmp k n acc).
Proof.
  unfold keys_ascending.
  induction acc as [|[k' m] rest IH]; intros Hs; simpl.
  - constructor; constructor.
  - simpl in Hs. apply StronglySorted_inv in Hs. destruct Hs as [Hrest Hall].
    destruct (cmp k k') eqn:E; simpl.
    + constructor; assumption.
    + constructor; [constructor; assumption|].
      constructor; [exact E|].
      rewrite Forall_forall in Hall |- *. intros x Hx.
      apply (cmp_trans k k' x); [exact E|now apply Hall].
    + constructor; [now apply IH|].
      rewrite Forall_forall in Hall |- *. intros x Hx.
      apply add_keys in Hx. destruct Hx as [->|Hx]; [|now apply Hall].
      unfold key_lt. rewrite cmp_antisym, E. reflexivity.
Qed.

Lemma ascending_NoDup (acc : list (K * nat)) :
  keys_ascending cmp acc -> NoDup (map fst acc).
Proof.
  unfold keys_ascending.
  induction acc as [|[k m] rest IH]; simpl; intros Hs; [constructor|].
  apply StronglySorted_inv in Hs. destruct Hs as [Hrest Hall].
  constructor; [|now apply IH].
  intros Hin. rewrite Forall_forall in Hall. specialize (Hall k Hin).
  unfold key_lt in Hall. rewrite cmp_refl in Hall. discriminate.
Qed.

Lemma weight_absent (p : K -> bool) (acc : list (K * nat)) :
  (forall x, In x (map fst acc) -> p x = false) -> weight p acc = 0.
Proof.
  induction acc as [|[k m] rest IH]; simpl; intros H; [reflexivity|].
  rewrite (H k) by now left. rewrite IH; [reflexivity|].
  intros x Hx. apply H. now right.
Qed.

(** In a table with distinct keys, the count stored at a key is the
    weight of that key. *)
Lemma weight_entry (p : K -> bool) (k : K) (n : nat) (acc : list (K * nat)) :
  NoDup (map fst acc) ->
  (forall x, p x = true <-> x = k) ->
  In (k, n) acc -> weight p acc = n.
Proof.
  intros Hnd Hp.
  induction acc as [|[k' m] rest IH]; simpl; intros Hin; [contradiction|].
  inversion Hnd as [|a l Hnotin Hnd']; subst.
  destruct Hin as [Heq|Hin].
  - injection Heq as -> ->.
    rewrite (proj2 (Hp k) eq_refl).
    rewrite weight_absent; [lia|].
    intros x Hx. destruct (p x) eqn:E; [|reflexivity].
    apply Hp in E. subst x. contradiction.
  - assert (Hne : p k' = false).
    { destruct (p k') eqn:E; [|reflexivity]. apply Hp in E. subst k'.
      exfalso. apply Hnotin. apply (in_map fst) in Hin. exact Hin. }
    rewrite Hne. simpl. now apply IH.
Qed.
End RunningTotals.

(** ** The two key orders *)

Lemma string_compare_refl (a : string) : String.compare a a = Eq.
Proof. now apply String_as_OT.cmp_eq. Qed.

Lemma string_compare_trans (a b c : string) :
  String.compare a b = Lt -> String.compare b c = Lt -> String.compare a c = Lt.
Proof.
  intros H1 H2.
  apply String_as_OT.cmp_lt in H1. apply String_as_OT.cmp_lt in H2.
  apply String_as_OT.cmp_lt. exact (String_as_OT.lt_trans _ _ _ H1 H2).
Qed.

Lemma compare2_eq (a b : key2) : compare2 a b = Eq -> a = b.
Proof.
  destruct a as [a1 a2], b as [b1 b2]. unfold compare2; simpl.
  destruct (String.compare a1 b1) eqn:E1; try discriminate.
  intros E2. apply String.compare_eq_iff in E1, E2. now subst.
Qed.

Lemma compare2_refl (a : key2) : compare2 a a = Eq.
Proof. unfold compare2. now rewrite !string_compare_refl. Qed.

Lemma compare2_antisym (a b : key2) : compare2 a b = CompOpp (compare2 b a).
Proof.
  unfold compare2.
  rewrite (String.compare_antisym (fst a) (fst b)).
  destruct (String.compare (fst b) (fst a)); simpl; try reflexivity.
  apply String.compare_antisym.
Qed.

Lemma compare2_trans (a b c : key2) :
  compare2 a b = Lt -> compare2 b c = Lt -> compare2 a c = Lt.
Proof.
  destruct a as [a1 a2], b as [b1 b2], c as [c1 c2]. unfold compare2; simpl.
  destruct (String.compare a1 b1) eqn:Eab; try discriminate;
    destruct (String.compare b1 c1) eqn:Ebc; try discriminate; intros H1 H2.
  - apply String.compare_eq_iff in Eab, Ebc. subst.
    rewrite string_compare_refl. exact (string_compare_trans _ _ _ H1 H2).
  - apply String.compare_eq_iff in Eab. subst. now rewrite Ebc.
  - apply String.compare_eq_iff in Ebc. subst. now rewrite Eab.
  - now rewrite (string_compare_trans _ _ _ Eab Ebc).
Qed.

(** ** [groupby(...).size()] *)

Section GroupbySize.
Variables c1 c2 : column.

Lemma size_fold_weight (p : key2 -> bool) (data : DataFrame) (acc : list (key2 * nat)) :
  weight p (fold_left (size_step c1 c2) data acc)
  = weight p acc + List.length (filter (selects c1 c2 p) data).
Proof.
  revert acc. induction data as [|r data IH]; intros acc; simpl; [lia|].
  rewrite IH. unfold size_step, selects.
  destruct (group_key c1 c2 r) as [k|]; [|lia].
  rewrite (weight_add compare2 compare2_eq).
  destruct (p k); simpl; lia.
Qed.

Lemma size_fold_positive (data : DataFrame) (acc : list (key2 * nat)) :
  Forall (fun e => 0 < snd e) acc ->
  Forall (fun e => 0 < snd e) (fold_left (size_step c1 c2) data acc).
Proof.
  revert acc. induction data as [|r data IH]; intros acc Hacc; simpl; [exact Hacc|].
  apply IH. unfold size_step. destruct (group_key c1 c2 r); [|exact Hacc].
  apply add_positive; [lia|exact Hacc].
Qed.

Lemma size_fold_ascending (data : DataFrame) (acc : list (key2 * nat)) :
  keys_ascending compare2 acc ->
  keys_ascending compare2 (fold_left (size_step c1 c2) data acc).
Proof.
  revert acc. induction data as [|r data IH]; intros acc Hacc; simpl; [exact Hacc|].
  apply IH. unfold size_step. destruct (group_key c1 c2 r); [|exact Hacc].
  apply (add_ascending compare2 compare2_eq compare2_antisym compare2_trans).
  exact Hacc.
Qed.

Lemma size_fold_keys (x : key2) (data : DataFrame) (acc : list (key2 * nat)) :
  In x (map fst (fold_left (size_step c1 c2) data acc))
  <-> In x (map fst acc) \/ exists r, In r data /\ group_key c1 c2 r = Some x.
Proof.
  revert acc. induction data as [|r data IH]; intros acc; simpl.
  - split; [now left|]. intros [H|[r [[] _]]]. exact H.
  - rewrite IH. unfold size_step.
    destruct (group_key c1 c2 r) as [k|] eqn:E.
    + rewrite (add_keys compare2 compare2_eq). split.
      * intros [[->|H]|[r' [H1 H2]]]; eauto 6.
      * intros [H|[r' [[->|H1] H2]]]; eauto 6.
        left. left. congruence.
    + split.
      * intros [H|[r' [H1 H2]]]; eauto 6.
      * intros [H|[r' [[->|H1] H2]]]; eauto 6. congruence.
Qed.

Lemma groupby_size_weight (p : key2 -> bool) (data : DataFrame) :
  weight p (groupby_size c1 c2 data) = List.length (filter (selects c1 c2 p) data).
Proof. unfold groupby_size. now rewrite size_fold_weight. Qed.

Lemma groupby_size_positive (data : DataFrame) :
  Forall (fun e => 0 < snd e) (groupby_size c1 c2 data).
Proof. apply size_fold_positive. constructor. Qed.

Lemma groupby_size_ascending (data : DataFrame) :
  keys_ascending compare2 (groupby_size c1 c2 data).
Proof. apply size_fold_ascending. constructor. Qed.

Lemma groupby_size_keys (x : key2) (data : DataFrame) :
  In x (map fst (groupby_size c1 c2 data))
  <-> exists r, In r data /\ group_key c1 c2 r = Some x.
Proof.
  unfold groupby_size. rewrite size_fold_keys. simpl.
  split; [intros [[]|H]; exact H|now right].
Qed.
End GroupbySize.

Lemma key_is_spec (g s : string) (k : key2) : key_is g s k = true <-> k = (g, s).
Proof.
  destruct k as [a b]. unfold key_is; simpl.
  rewrite andb_true_iff, !String.eqb_eq.
  split; [intros [-> ->]; reflexivity|intros [= -> ->]; now split].
Qed.

Lemma selects_key_is (c : column) (g s : string) (r : Row) :
  selects c Recruitment_Status (key_is g s) r
  = cell_eq (get r c) g && cell_eq (recruitment_status r) s.
Proof.
  unfold selects, group_key, key_is. simpl.
  destruct (get r c) as [a|]; simpl; [|reflexivity].
  destruct (recruitment_status r) as [b|]; simpl; [reflexivity|].
  now rewrite andb_false_r.
Qed.

Lemma selects_any (c1 c2 : column) (r : Row) :
  selects c1 c2 (fun _ => true) r = has_key c1 c2 r.
Proof.
  unfold selects, group_key, has_key.
  destruct (get r c1); simpl; [|reflexivity].
  now destruct (get r c2).
Qed.

(** The count emitted for a pair is the number of rows holding that pair. *)
Lemma groupby_size_entry (c : column) (g s : string) (n : nat) (data : DataFrame) :
  In ((g, s), n) (groupby_size c Recruitment_Status data) ->
  n = group_status_count c g s data.
Proof.
  intros Hin.
  rewrite <- (weight_entry (key_is g s) (g, s) n
                (groupby_size c Recruitment_Status data)).
  - rewrite groupby_size_weight. unfold group_status_count.
    f_equal. apply filter_ext. intros r. apply selects_key_is.
  - apply (ascending_NoDup compare2 compare2_refl), groupby_size_ascending.
  - apply key_is_spec.
  - exact Hin.
Qed.

(** C7, as amended: every emitted (group, status) pair has a count of at
    least one, which is the number of rows holding that pair, and the
    emitted counts add up to the number of rows in which both the group
    column and the Recruitment Status are present. *)
Theorem counts_positive_and_sum (c : column) (data : DataFrame) :
  principle_chart data = groupby_size Principle Recruitment_Status data
  /\ Forall (fun e => 0 < snd e) (groupby_size c Recruitment_Status data)
  /\ (forall g s n, In ((g, s), n) (groupby_size c Recruitment_Status data) <->
                    n = group_status_count c g s data /\ 0 < n)
  /\ total (groupby_size c Recruitment_Status data)
     = List.length (filter (has_key c Recruitment_Status) data).
Proof.
  split; [reflexivity|].
  split; [apply groupby_size_positive|].
  split.
  - intros g s n. split.
    + intros Hin. split; [now apply groupby_size_entry|].
      pose proof (groupby_size_positive c Recruitment_Status data) as Hp.
      rewrite Forall_forall in Hp. exact (Hp _ Hin).
    + intros [Hn Hpos].
      assert (Hk : In (g, s) (map fst (groupby_size c Recruitment_Status data))).
      { apply groupby_size_keys.
        unfold group_status_count in Hn.
        destruct (filter (fun r => cell_eq (get r c) g && cell_eq (recruitment_status r) s) data)
          as [|r l] eqn:E; [simpl in Hn; lia|].
        assert (Hr : In r (r :: l)) by now left.
        rewrite <- E in Hr. apply filter_In in Hr. destruct Hr as [Hr Hb].
        apply andb_true_iff in Hb. destruct Hb as [Hb1 Hb2].
        apply cell_eq_Some in Hb1, Hb2.
        exists r. split; [exact Hr|].
        unfold group_key. simpl. now rewrite Hb1, Hb2. }
      apply in_map_iff in Hk. destruct Hk as [[k m] [Hfst Hin]].
      simpl in Hfst. subst k.
      rewrite Hn, <- (groupby_size_entry c g s m data Hin). exact Hin.
  - unfold total. rewrite groupby_size_weight.
    f_equal. apply filter_ext. intros r. apply selects_any.
Qed.

(** C7, as stated, fails: a row whose Principle is missing is in the subset
    but in no emitted pair, so the counts add up to less than the size of
    the subset. *)
Lemma counts_sum_misses_blank_principle :
  total (principle_chart [row_without_principle])
  <> List.length [row_without_principle].
Proof. vm_compute. discriminate. Qed.

(** ** [groupby(level)["Count"].sum()] *)

Section GroupbySum.
Variable level : key2 -> string.

Lemma sum_fold_weight (p : string -> bool) (chart : list (key2 * nat))
  (acc : list (string * nat)) :
  weight p (fold_left (fun acc e => add String.compare (level (fst e)) (snd e) acc)
                      chart acc)
  = weight p acc + weight (fun k => p (level k)) chart.
Proof.
  revert acc. induction chart as [|[k n] chart IH]; intros acc; simpl; [lia|].
  rewrite IH, (weight_add String.compare String.compare_eq_iff). lia.
Qed.

Lemma sum_fold_ascending (chart : list (key2 * nat)) (acc : list (string * nat)) :
  keys_ascending String.compare acc ->
  keys_ascending String.compare
    (fold_left (fun acc e => add String.compare (level (fst e)) (snd e) acc) chart acc).
Proof.
  revert acc. induction chart as [|[k n] chart IH]; intros acc Hacc; simpl; [exact Hacc|].
  apply IH.
  apply (add_ascending String.compare String.compare_eq_iff
           String.compare_antisym string_compare_trans).
  exact Hacc.
Qed.

Lemma sum_fold_keys (g : string) (chart : list (key2 * nat)) (acc : list (string * nat)) :
  In g (map fst (fold_left (fun acc e => add String.compare (level (fst e)) (snd e) acc)
                           chart acc))
  <-> In g (map fst acc) \/ exists k, In k (map fst chart) /\ level k = g.
Proof.
  revert acc. induction chart as [|[k n] chart IH]; intros acc; simpl.
  - split; [now left|]. intros [H|[k [[] _]]]. exact H.
  - rewrite IH, (add_keys String.compare String.compare_eq_iff). split.
    + intros [[->|H]|[k' [H1 H2]]]; eauto 6.
    + intros [H|[k' [[->|H1] H2]]]; eauto 6.
Qed.

Lemma groupby_sum_weight (p : string -> bool) (chart : list (key2 * nat)) :
  weight p (groupby_sum level chart) = weight (fun k => p (level k)) chart.
Proof. unfold groupby_sum. now rewrite sum_fold_weight. Qed.

Lemma groupby_sum_NoDup (chart : list (key2 * nat)) :
  NoDup (map fst (groupby_sum level chart)).
Proof.
  apply (ascending_NoDup String.compare string_compare_refl).
  apply sum_fold_ascending. constructor.
Qed.

Lemma groupby_sum_keys (g : string) (chart : list (key2 * nat)) :
  In g (map fst (groupby_sum level chart))
  <-> exists k, In k (map fst chart) /\ level k = g.
Proof.
  unfold groupby_sum. rewrite sum_fold_keys. simpl.
  split; [intros [[]|H]; exact H|now right].
Qed.

(** The sum stored for a group is the weight of the group in the chart. *)
Lemma groupby_sum_entry (g : string) (t : nat) (chart : list (key2 * nat)) :
  In (g, t) (groupby_sum level chart) ->
  t = weight (fun k => String.eqb (level k) g) chart.
Proof.
  intros Hin.
  rewrite <- (groupby_sum_weight (fun x => String.eqb x g)).
  symmetry. apply (weight_entry _ g); [apply groupby_sum_NoDup| |exact Hin].
  intros x. apply String.eqb_eq.
Qed.
End GroupbySum.

(** ** [sort_values(ascending=False)] *)

Lemma insert_asc_perm (x : string * nat) (l : list (string * nat)) :
  Permutation (x :: l) (insert_asc x l).
Proof.
  induction l as [|y l IH]; simpl; [reflexivity|].
  destruct (snd x <? snd y); [reflexivity|].
  rewrite perm_swap. now constructor.
Qed.

Lemma insert_asc_sorted (x : string * nat) (l : list (string * nat)) :
  StronglySorted (fun a b => snd a <= snd b) l ->
  StronglySorted (fun a b => snd a <= snd b) (insert_asc x l).
Proof.
  induction l as [|y l IH]; simpl; intros Hs.
  - constructor; constructor.
  - apply StronglySorted_inv in Hs. destruct Hs as [Hl Hy].
    destruct (snd x <? snd y) eqn:E.
    + apply Nat.ltb_lt in E.
      constructor; [constructor; assumption|].
      constructor; [lia|].
      eapply Forall_impl; [|exact Hy]. simpl. intros a Ha. lia.
    + apply Nat.ltb_ge in E.
      constructor; [now apply IH|].
      rewrite Forall_forall in Hy |- *. intros a Ha.
      apply (Permutation_in _ (Permutation_sym (insert_asc_perm x l))) in Ha.
      destruct Ha as [<-|Ha]; [exact E|now apply Hy].
Qed.

Lemma sort_fold_perm (l acc : list (string * nat)) :
  Permutation (l ++ acc) (fold_left (fun acc x => insert_asc x acc) l acc).
Proof.
  revert acc. induction l as [|x l IH]; intros acc; simpl; [reflexivity|].
  rewrite <- IH. rewrite <- insert_asc_perm. apply Permutation_middle.
Qed.

Lemma sort_fold_sorted (l acc : list (string * nat)) :
  StronglySorted (fun a b => snd a <= snd b) acc ->
  StronglySorted (fun a b => snd a <= snd b)
    (fold_left (fun acc x => insert_asc x acc) l acc).
Proof.
  revert acc. induction l as [|x l IH]; intros acc Hacc; simpl; [exact Hacc|].
  apply IH. now apply insert_asc_sorted.
Qed.

Lemma StronglySorted_snoc {A : Type} (R : A -> A -> Prop) (l : list A) (a : A) :
  StronglySorted R l -> Forall (fun x => R x a) l -> StronglySorted R (l ++ [a]).
Proof.
  induction l as [|b l IH]; simpl; intros Hs Hall.
  - constructor; constructor.
  - apply StronglySorted_inv in Hs. destruct Hs as [Hl Hb].
    inversion Hall as [|c l' Hba Hall']; subst.
    constructor; [now apply IH|].
    apply Forall_app. split; [exact Hb|]. constructor; [exact Hba|constructor].
Qed.

Lemma StronglySorted_rev {A : Type} (R : A -> A -> Prop) (l : list A) :
  StronglySorted R l -> StronglySorted (fun a b => R b a) (rev l).
Proof.
  induction l as [|a l IH]; simpl; intros Hs; [constructor|].
  apply StronglySorted_inv in Hs. destruct Hs as [Hl Ha].
  apply StronglySorted_snoc; [now apply IH|].
  rewrite Forall_forall in Ha |- *. intros x Hx. apply Ha. now apply in_rev.
Qed.

Lemma sort_values_desc_perm (l : list (string * nat)) :
  Permutation l (sort_values_desc l).
Proof.
  unfold sort_values_desc, sort_asc.
  rewrite <- Permutation_rev, <- sort_fold_perm, app_nil_r.
  apply Permutation_rev.
Qed.

Lemma sort_values_desc_sorted (l : list (string * nat)) :
  StronglySorted (fun a b => snd b <= snd a) (sort_values_desc l).
Proof.
  unfold sort_values_desc, sort_asc.
  apply (StronglySorted_rev (fun a b => snd a <= snd b)).
  apply sort_fold_sorted. constructor.
Qed.

Lemma StronglySorted_map_in {A B : Type} (R : A -> A -> Prop) (R' : B -> B -> Prop)
  (f : A -> B) (l : list A) :
  (forall x y, In x l -> In y l -> R x y -> R' (f x) (f y)) ->
  StronglySorted R l -> StronglySorted R' (map f l).
Proof.
  induction l as [|a l IH]; simpl; intros HR Hs; [constructor|].
  apply StronglySorted_inv in Hs. destruct Hs as [Hl Ha].
  constructor.
  - apply IH; [|exact Hl]. intros x y Hx Hy. apply HR; now right.
  - rewrite Forall_forall in Ha |- *. intros b Hb.
    apply in_map_iff in Hb. destruct Hb as [y [<- Hy]].
    apply HR; [now left|now right|now apply Ha].
Qed.

(** ** Display order *)

Lemma group_total_rows (data : DataFrame) (g : string) :
  group_total data g = group_rows data g.
Proof.
  unfold group_total, principle_chart, group_rows.
  rewrite groupby_size_weight. f_equal. apply filter_ext. intros r.
  unfold selects, group_key. simpl.
  destruct (principle r) as [a|]; simpl; [|reflexivity].
  destruct (recruitment_status r); simpl;
    [now rewrite andb_true_r|now rewrite andb_false_r].
Qed.

Lemma order_perm (data : DataFrame) :
  Permutation (map fst (groupby_sum fst (principle_chart data))) (order data).
Proof. unfold order. apply Permutation_map, sort_values_desc_perm. Qed.

(** C9: along [order], the groups come with their totals in descending
    order, the total of a group being the sum of the counts emitted for
    it over all statuses, that is the number of its rows that carry a
    status.  [order] lists each emitted group once.  Nothing is stated
    on the relative order of groups with equal totals. *)
Theorem order_descending_by_total (data : DataFrame) :
  descending (group_total data) (order data)
  /\ NoDup (order data)
  /\ (forall g, In g (order data) <->
        exists r, In r data /\ principle r = Some g
                  /\ present (recruitment_status r) = true)
  /\ (forall g, group_total data g = group_rows data g).
Proof.
  split; [|split; [|split]].
  - unfold descending, order.
    apply (StronglySorted_map_in (fun a b => snd b <= snd a));
      [|apply sort_values_desc_sorted].
    assert (Hval : forall x, In x (sort_values_desc (groupby_sum fst (principle_chart data))) ->
                             snd x = group_total data (fst x)).
    { intros [g t] Hx. simpl.
      apply (Permutation_in _ (Permutation_sym (sort_values_desc_perm _))) in Hx.
      now apply groupby_sum_entry in Hx. }
    intros x y Hx Hy Hle. now rewrite <- (Hval x Hx), <- (Hval y Hy).
  - apply (Permutation_NoDup (order_perm data)), groupby_sum_NoDup.
  - intros g. split.
    + intros Hin.
      apply (Permutation_in _ (Permutation_sym (order_perm data))) in Hin.
      apply groupby_sum_keys in Hin. destruct Hin as [[a b] [Hk Hg]].
      simpl in Hg. subst a.
      apply groupby_size_keys in Hk. destruct Hk as [r [Hr Hkey]].
      exists r. split; [exact Hr|].
      unfold group_key in Hkey. simpl in Hkey.
      destruct (principle r) as [a|]; [|discriminate].
      destruct (recruitment_status r) as [c|]; [|discriminate].
      injection Hkey as -> ->. now split.
    + intros [r [Hr [Hp Hs]]].
      apply (Permutation_in _ (order_perm data)).
      destruct (recruitment_status r) as [s|] eqn:Es; [|discriminate].
      apply groupby_sum_keys. exists (g, s). split; [|reflexivity].
      apply groupby_size_keys. exists r. split; [exact Hr|].
      unfold group_key. simpl. now rewrite Hp, Es.
  - apply group_total_rows.
Qed.

(** ** Per-region table *)

Lemma lookup_weight (g s : string) (sizes : list (key2 * nat)) :
  NoDup (map fst sizes) -> lookup (g, s) sizes = weight (key_is g s) sizes.
Proof.
  induction sizes as [|[k n] rest IH]; simpl; intros Hnd; [reflexivity|].
  inversion Hnd as [|a l Hnotin Hnd']; subst.
  destruct (compare2 (g, s) k) eqn:E.
  - apply compare2_eq in E. subst k.
    rewrite (proj2 (key_is_spec g s (g, s)) eq_refl).
    rewrite weight_absent; [lia|].
    intros x Hx. destruct (key_is g s x) eqn:Ex; [|reflexivity].
    apply key_is_spec in Ex. subst x. contradiction.
  - assert (Hk : key_is g s k = false).
    { destruct (key_is g s k) eqn:Ex; [|reflexivity].
      apply key_is_spec in Ex. subst k. rewrite compare2_refl in E. discriminate. }
    rewrite Hk. simpl. now apply IH.
  - assert (Hk : key_is g s k = false).
    { destruct (key_is g s k) eqn:Ex; [|reflexivity].
      apply key_is_spec in Ex. subst k. rewrite compare2_refl in E. discriminate. }
    rewrite Hk. simpl. now apply IH.
Qed.

Lemma lookup_count (c : column) (g s : string) (data : DataFrame) :
  lookup (g, s) (groupby_size c Recruitment_Status data)
  = group_status_count c g s data.
Proof.
  rewrite lookup_weight
    by apply (ascending_NoDup compare2 compare2_refl), groupby_size_ascending.
  rewrite groupby_size_weight. unfold group_status_count.
  f_equal. apply filter_ext. intros r. apply selects_key_is.
Qed.

Lemma column_present (c : column) (name : string) (data : DataFrame) :
  existsb (String.eqb name) (columns_of (groupby_size c Recruitment_Status data)) = true
  <-> exists r, In r data /\ present (get r c) = true
                /\ recruitment_status r = Some name.
Proof.
  rewrite existsb_exists. unfold columns_of. split.
  - intros [x [Hin Hx]]. apply String.eqb_eq in Hx. subst x.
    apply groupby_sum_keys in Hin. destruct Hin as [[a b] [Hk Hs]].
    simpl in Hs. subst b.
    apply groupby_size_keys in Hk. destruct Hk as [r [Hr Hkey]].
    exists r. split; [exact Hr|].
    unfold group_key in Hkey. simpl in Hkey.
    destruct (get r c); [|discriminate].
    destruct (recruitment_status r); [|discriminate].
    injection Hkey as -> ->. now split.
  - intros [r [Hr [Hp Hs]]]. exists name. split; [|apply String.eqb_refl].
    destruct (get r c) as [g|] eqn:Eg; [|discriminate].
    apply groupby_sum_keys. exists (g, name). split; [|reflexivity].
    apply groupby_size_keys. exists r. split; [exact Hr|].
    unfold group_key. simpl. now rewrite Eg, Hs.
Qed.

Lemma column_absent_count (c : column) (g name : string) (data : DataFrame) :
  existsb (String.eqb name) (columns_of (groupby_size c Recruitment_Status data)) = false ->
  group_status_count c g name data = 0.
Proof.
  intros Habs. unfold group_status_count.
  destruct (filter (fun r => cell_eq (get r c) g && cell_eq (recruitment_status r) name) data)
    as [|r l] eqn:E; [reflexivity|].
  exfalso.
  assert (Hr : In r (r :: l)) by now left.
  rewrite <- E in Hr. apply filter_In in Hr. destruct Hr as [Hr Hb].
  apply andb_true_iff in Hb. destruct Hb as [Hb1 Hb2].
  apply cell_eq_Some in Hb1, Hb2.
  assert (Hpres : existsb (String.eqb name)
                    (columns_of (groupby_size c Recruitment_Status data)) = true).
  { apply column_present. exists r. rewrite Hb1. now repeat split. }
  congruence.
Qed.

Lemma index_groups (c : column) (g : string) (data : DataFrame) :
  In g (index_of (groupby_size c Recruitment_Status data))
  <-> exists r, In r data /\ get r c = Some g
                /\ present (recruitment_status r) = true.
Proof.
  unfold index_of. rewrite groupby_sum_keys. split.
  - intros [[a b] [Hk Hg]]. simpl in Hg. subst a.
    apply groupby_size_keys in Hk. destruct Hk as [r [Hr Hkey]].
    exists r. split; [exact Hr|].
    unfold group_key in Hkey. simpl in Hkey.
    destruct (get r c); [|discriminate].
    destruct (recruitment_status r); [|discriminate].
    injection Hkey as -> ->. now split.
  - intros [r [Hr [Hg Hs]]].
    destruct (recruitment_status r) as [s|] eqn:Es; [|discriminate].
    exists (g, s). split; [|reflexivity].
    apply groupby_size_keys. exists r. split; [exact Hr|].
    unfold group_key. simpl. now rewrite Hg, Es.
Qed.

Lemma combine_map {A B C : Type} (f : A -> B) (g : A -> C) (l : list A) :
  combine (map f l) (map g l) = map (fun x => (f x, g x)) l.
Proof. induction l as [|x l IH]; simpl; [reflexivity|now rewrite IH]. Qed.

Lemma combine_self_map {A B : Type} (g : A -> B) (l : list A) :
  combine l (map g l) = map (fun x => (x, g x)) l.
Proof. induction l as [|x l IH]; simpl; [reflexivity|now rewrite IH]. Qed.

Lemma truediv_percentage (o r : nat) : times (truediv r (o + r)) 100 = percentage o r.
Proof.
  unfold truediv, percentage.
  destruct (o + r =? 0) eqn:E; [|reflexivity].
  apply Nat.eqb_eq in E. assert (r = 0) as -> by lia. reflexivity.
Qed.

(** When no status is named "Regional" and at least one of the columns
    "OPEN" and "RECRUIT" exists, the division is done inside a Series and
    the table has one row per group. *)
Lemma regional_chart_table (data : DataFrame) :
  existsb (String.eqb "Regional") (columns_of (groupby_size Regional Recruitment_Status data))
  = false ->
  existsb (String.eqb "RECRUIT") (columns_of (groupby_size Regional Recruitment_Status data))
  || existsb (String.eqb "OPEN") (columns_of (groupby_size Regional Recruitment_Status data))
  = true ->
  regional_chart data
  = Ok (map (fun g => (g, percentage (group_status_count Regional g "OPEN" data)
                                     (group_status_count Regional g "RECRUIT" data)))
            (index_of (groupby_size Regional Recruitment_Status data))).
Proof.
  intros Hreg Hcol. unfold regional_chart, temp_get. rewrite Hreg.
  set (sizes := groupby_size Regional Recruitment_Status data) in *.
  destruct (existsb (String.eqb "RECRUIT") (columns_of sizes)) eqn:ER;
    destruct (existsb (String.eqb "OPEN") (columns_of sizes)) eqn:EO;
    try discriminate; simpl; f_equal.
  - repeat (rewrite map_map || rewrite combine_map). rewrite combine_self_map.
    apply map_ext. intros g. simpl. subst sizes.
    now rewrite !lookup_count, truediv_percentage.
  - repeat (rewrite map_map || rewrite combine_map). rewrite combine_self_map.
    apply map_ext. intros g. simpl. subst sizes.
    rewrite lookup_count.
    rewrite (column_absent_count Regional g "OPEN" data EO).
    f_equal. exact (truediv_percentage 0 _).
  - repeat (rewrite map_map || rewrite combine_map). rewrite combine_self_map.
    apply map_ext. intros g. simpl. subst sizes.
    rewrite lookup_count.
    rewrite (column_absent_count Regional g "RECRUIT" data ER).
    f_equal. exact (truediv_percentage _ 0).
Qed.

Lemma Regional_column (data : DataFrame) :
  existsb (String.eqb "Regional")
    (columns_of (groupby_size Regional Recruitment_Status data)) = true
  <-> status_named_Regional data.
Proof. apply (column_present Regional). Qed.

Lemma no_Regional_column (data : DataFrame) :
  ~ status_named_Regional data ->
  existsb (String.eqb "Regional")
    (columns_of (groupby_size Regional Recruitment_Status data)) = false.
Proof.
  intros H. apply not_true_is_false. intros E. apply H. now apply Regional_column.
Qed.

(** C4, as amended: when no row with a region carries the text "Regional"
    as its status and some row with a region is OPEN or RECRUIT, the
    table has exactly one row for every region that has a row carrying a
    status, and the percentage of a region is
    recruit / (open + recruit) * 100, not-a-number when open + recruit is
    zero; such a region stays in the table. *)
Theorem regional_chart_percentages (data : DataFrame) :
  ~ status_named_Regional data ->
  (exists r, In r data /\ present (regional r) = true
             /\ (recruitment_status r = Some "OPEN"
                 \/ recruitment_status r = Some "RECRUIT")) ->
  exists temp,
    regional_chart data = Ok temp
    /\ NoDup (map fst temp)
    /\ (forall g, In g (map fst temp) <->
          exists r, In r data /\ regional r = Some g
                    /\ present (recruitment_status r) = true)
    /\ (forall g p, In (g, p) temp ->
          p = percentage (group_status_count Regional g "OPEN" data)
                         (group_status_count Regional g "RECRUIT" data)).
Proof.
  intros Hreg [r [Hr [Hp Hs]]].
  eexists. split.
  - apply regional_chart_table; [now apply no_Regional_column|].
    apply orb_true_iff.
    destruct Hs as [Hs|Hs]; [right|left];
      apply (column_present Regional); exists r; now repeat split.
  - rewrite map_map. simpl. rewrite map_id.
    split; [apply groupby_sum_NoDup|].
    split; [intros g; apply (index_groups Regional)|].
    intros g p Hin. apply in_map_iff in Hin.
    destruct Hin as [g' [Heq _]]. now injection Heq as -> <-.
Qed.

Lemma regional_chart_percentages_witness :
  exists temp,
    regional_chart [row "AMK" "P1" "East" "OPEN"; row "AMK" "P1" "West" "HOLD"] = Ok temp
    /\ In ("East", Fin 0) temp /\ In ("West", NaN) temp.
Proof.
  destruct (regional_chart_percentages
              [row "AMK" "P1" "East" "OPEN"; row "AMK" "P1" "West" "HOLD"])
    as [temp [E _]].
  - intros [r [Hin [_ Hs]]]. simpl in Hin.
    destruct Hin as [<-|[<-|[]]]; discriminate.
  - exists (row "AMK" "P1" "East" "OPEN"). simpl. auto.
  - exists temp. split; [exact E|].
    vm_compute in E. injection E as <-. simpl. auto.
Defined.

(** C4, as stated, fails on two subsets.  A region whose rows all lack a
    status is left out of the table; and when no row is OPEN or RECRUIT
    the division is between two plain zeros and raises, so that no table
    is produced at all. *)
Lemma regional_chart_drops_or_raises :
  ~ every_group_reported east_open_west_blank
  /\ ~ every_group_reported west_on_hold.
Proof.
  split; intros H.
  - destruct (H "West") as [temp [E Hin]].
    + exists (row_without_status "West"). simpl. auto.
    + vm_compute in E. injection E as <-.
      simpl in Hin. destruct Hin as [Hin|[]]. discriminate.
  - destruct (H "West") as [temp [E _]].
    + exists (row "AMK" "P1" "West" "HOLD"). simpl. auto.
    + vm_compute in E. discriminate.
Qed.

(** * Further properties of the program *)

(** ** Select boxes *)

Lemma dropna_In (v : string) (cells : list cell) :
  In v (dropna cells) <-> In (Some v) cells.
Proof.
  unfold dropna. rewrite in_flat_map. split.
  - intros [[w|] [Hc Hv]]; simpl in Hv; [|contradiction].
    destruct Hv as [->|[]]. exact Hc.
  - intros H. exists (Some v). split; [exact H|now left].
Qed.

Lemma existsb_eqb_In (x : string) (l : list string) :
  existsb (String.eqb x) l = true <-> In x l.
Proof.
  rewrite existsb_exists. split.
  - intros [y [Hy E]]. apply String.eqb_eq in E. now subst.
  - intros H. exists x. split; [exact H|apply String.eqb_refl].
Qed.

Lemma unique_from_In (x : string) (l seen : list string) :
  In x (unique_from seen l) <-> In x l /\ ~ In x seen.
Proof.
  revert seen. induction l as [|y l IH]; intros seen; simpl.
  - tauto.
  - destruct (existsb (String.eqb y) seen) eqn:E.
    + apply existsb_eqb_In in E. rewrite IH. split.
      * intros [H1 H2]. tauto.
      * intros [[->|H1] H2]; [contradiction|tauto].
    + assert (Hy : ~ In y seen).
      { intros H. apply existsb_eqb_In in H. congruence. }
      simpl. rewrite IH. simpl. split.
      * intros [->|[H1 H2]]; [tauto|]. split; [tauto|]. intros H. apply H2. now right.
      * intros [[->|H1] H2]; [now left|].
        destruct (String.eqb_spec y x) as [->|Hne]; [now left|right].
        split; [exact H1|]. intros [H|H]; [contradiction|contradiction].
Qed.

Lemma unique_from_NoDup (l seen : list string) : NoDup (unique_from seen l).
Proof.
  revert seen. induction l as [|y l IH]; intros seen; simpl; [constructor|].
  destruct (existsb (String.eqb y) seen); [apply IH|].
  constructor; [|apply IH].
  rewrite unique_from_In. intros [_ H]. apply H. now left.
Qed.

Lemma string_le_trans (a b c : string) :
  string_le a b -> string_le b c -> string_le a c.
Proof.
  unfold string_le. intros H1 H2.
  destruct (String.compare a b) eqn:Eab; [| |contradiction].
  - apply String.compare_eq_iff in Eab. now subst.
  - destruct (String.compare b c) eqn:Ebc; [| |contradiction].
    + apply String.compare_eq_iff in Ebc. subst. now rewrite Eab.
    + now rewrite (string_compare_trans _ _ _ Eab Ebc).
Qed.

Lemma insert_str_perm (x : string) (l : list string) :
  Permutation (x :: l) (insert_str x l).
Proof.
  induction l as [|y l IH]; simpl; [reflexivity|].
  destruct (String.ltb x y); [reflexivity|].
  rewrite perm_swap. now constructor.
Qed.

Lemma insert_str_sorted (x : string) (l : list string) :
  StronglySorted string_le l -> StronglySorted string_le (insert_str x l).
Proof.
  induction l as [|y l IH]; simpl; intros Hs.
  - constructor; constructor.
  - apply StronglySorted_inv in Hs. destruct Hs as [Hl Hy].
    unfold String.ltb. destruct (String.compare x y) eqn:E.
    + constructor; [now apply IH|].
      rewrite Forall_forall in Hy |- *. intros a Ha.
      apply (Permutation_in _ (Permutation_sym (insert_str_perm x l))) in Ha.
      destruct Ha as [<-|Ha]; [|now apply Hy].
      unfold string_le. rewrite String.compare_antisym, E. discriminate.
    + assert (Hxy : string_le x y) by (unfold string_le; rewrite E; discriminate).
      constructor; [constructor; assumption|].
      constructor; [exact Hxy|].
      eapply Forall_impl; [|exact Hy]. intros a Ha.
      exact (string_le_trans _ _ _ Hxy Ha).
    + constructor; [now apply IH|].
      rewrite Forall_forall in Hy |- *. intros a Ha.
      apply (Permutation_in _ (Permutation_sym (insert_str_perm x l))) in Ha.
      destruct Ha as [<-|Ha]; [|now apply Hy].
      unfold string_le. rewrite String.compare_antisym, E. discriminate.
Qed.

Lemma sorted_fold_perm (l acc : list string) :
  Permutation (l ++ acc) (fold_left (fun acc x => insert_str x acc) l acc).
Proof.
  revert acc. induction l as [|x l IH]; intros acc; simpl; [reflexivity|].
  rewrite <- IH, <- insert_str_perm. apply Permutation_middle.
Qed.

Lemma sorted_fold_sorted (l acc : list string) :
  StronglySorted string_le acc ->
  StronglySorted string_le (fold_left (fun acc x => insert_str x acc) l acc).
Proof.
  revert acc. induction l as [|x l IH]; intros acc Hacc; simpl; [exact Hacc|].
  apply IH. now apply insert_str_sorted.
Qed.

Lemma sorted_perm (l : list string) : Permutation l (sorted l).
Proof.
  unfold sorted. rewrite <- sorted_fold_perm. now rewrite app_nil_r.
Qed.

(** X1: the options of a select box are "All" followed by the values of
    the column: every value that occurs, no missing cell, each value once,
    in ascending order. *)
Theorem options_shape (df : DataFrame) (c : column) :
  exists values,
    options df c = "All" :: values
    /\ StronglySorted string_le values
    /\ NoDup values
    /\ (forall v, In v values <-> exists r, In r df /\ get r c = Some v).
Proof.
  eexists. split; [reflexivity|].
  split; [apply sorted_fold_sorted; constructor|].
  split.
  - apply (Permutation_NoDup (sorted_perm _)). apply unique_from_NoDup.
  - intros v. split.
    + intros Hin.
      apply (Permutation_in _ (Permutation_sym (sorted_perm _))) in Hin.
      apply unique_from_In in Hin. destruct Hin as [Hin _].
      apply dropna_In, in_map_iff in Hin.
      destruct Hin as [r [Hg Hr]]. now exists r.
    + intros [r [Hr Hg]].
      apply (Permutation_in _ (sorted_perm _)).
      apply unique_from_In. split; [|intros []].
      apply dropna_In, in_map_iff. now exists r.
Qed.

(** ** More on the filter *)

Lemma matchesb_app (items more : list (column * string)) (r : Row) :
  matchesb (items ++ more) r = matchesb items r && matchesb more r.
Proof. unfold matchesb. apply forallb_app. Qed.

Lemma matchesb_all_All (items : list (column * string)) (r : Row) :
  Forall (fun item : column * string => snd item = "All") items ->
  matchesb items r = true.
Proof.
  intros H. unfold matchesb. apply forallb_forall.
  rewrite Forall_forall in H. intros [col val] Hin.
  specialize (H _ Hin). simpl in H. now subst val.
Qed.

Lemma matchesb_perm (items items' : list (column * string)) (r : Row) :
  Permutation items items' -> matchesb items r = matchesb items' r.
Proof.
  unfold matchesb. intros HP.
  induction HP as [|x l l' HP IH|x y l|l l' l'' HP1 IH1 HP2 IH2]; simpl.
  - reflexivity.
  - now rewrite IH.
  - now rewrite !andb_assoc, (andb_comm (let (col, val) := y in _)).
  - now rewrite IH1.
Qed.



(** X2: an option offered by the select box of a dimension, other than
    "All", always selects at least one row: with the other dimensions left
    on "All", the view is the non-empty list of the rows holding that value. *)
Theorem option_selects_rows (df : DataFrame) (c : column) (v : string)
  (before after : list (column * string)) :
  In v (tl (options df c)) -> v <> "All" ->
  Forall (fun item : column * string => snd item = "All") before ->
  Forall (fun item : column * string => snd item = "All") after ->
  filtered df (before ++ (c, v) :: after) = filter (fun r => cell_eq (get r c) v) df
  /\ filtered df (before ++ (c, v) :: after) <> [].
Proof.
  intros Hopt Hne Hb Ha.
  assert (E : filtered df (before ++ (c, v) :: after)
              = filter (fun r => cell_eq (get r c) v) df).
  { rewrite filtered_as_filter. apply filter_ext. intros r.
    rewrite matchesb_app, (matchesb_all_All before r Hb).
    change ((c, v) :: after) with ([(c, v)] ++ after)%list.
    rewrite matchesb_app, (matchesb_all_All after r Ha).
    unfold matchesb. simpl.
    apply String.eqb_neq in Hne. rewrite Hne. simpl.
    now rewrite !andb_true_r. }
  split; [exact E|].
  rewrite E. simpl in Hopt.
  apply (Permutation_in _ (Permutation_sym (sorted_perm _))) in Hopt.
  apply unique_from_In in Hopt. destruct Hopt as [Hopt _].
  apply dropna_In, in_map_iff in Hopt. destruct Hopt as [r [Hg Hr]].
  intros Hnil.
  assert (Hin : In r (filter (fun r => cell_eq (get r c) v) df)).
  { apply filter_In. split; [exact Hr|]. now apply cell_eq_Some. }
  rewrite Hnil in Hin. contradiction.
Qed.

Lemma option_selects_rows_witness :
  filtered sample10 (filters (mkSelection "AMK" "All" "All" "All" "All" "All"))
  <> [].
Proof.
  apply (option_selects_rows sample10 Agency "AMK" []
           [(Principle, "All"); (Area, "All"); (Job_Title, "All");
            (Regional, "All"); (Status_Quota, "All")]).
  - vm_compute. auto.
  - discriminate.
  - constructor.
  - repeat constructor.
Defined.

(** X3: filtering a view again with the same selection changes nothing. *)
Theorem filtered_idempotent (df : DataFrame) (items : list (column * string)) :
  filtered (filtered df items) items = filtered df items.
Proof.
  rewrite !filtered_as_filter, filter_twice.
  apply filter_ext. intros r. now destruct (matchesb items r).
Qed.

(** X4: the constraints can be applied in any order and in any grouping:
    filtering by some of them and then by the others gives the view of
    filtering by all of them at once, whatever the order of the items. *)
Theorem filtered_any_order (df : DataFrame) (first second items : list (column * string)) :
  Permutation (first ++ second) items ->
  filtered (filtered df first) second = filtered df items.
Proof.
  intros HP. rewrite !filtered_as_filter, filter_twice.
  apply filter_ext. intros r.
  now rewrite <- (matchesb_perm _ _ r HP), matchesb_app.
Qed.

Lemma filtered_any_order_witness :
  filtered (filtered sample10 [(Regional, "East")]) [(Agency, "AMK")]
  = filtered sample10 [(Agency, "AMK"); (Regional, "East")].
Proof.
  apply (filtered_any_order sample10 [(Regional, "East")] [(Agency, "AMK")]).
  apply perm_swap.
Defined.

(** ** Agency sub-populations *)

Lemma filtered_rows_match (df : DataFrame) (items : list (column * string))
  (col : column) (val : string) (r : Row) :
  In (col, val) items -> val <> "All" ->
  In r (filtered df items) -> get r col = Some val.
Proof.
  intros Hin Hne Hr.
  rewrite filtered_as_filter, filter_In, matchesb_Matches in Hr.
  destruct Hr as [_ Hm]. now apply Hm.
Qed.


(** X5: the two sub-populations share no row, and together with the rows
    of any other or missing agency they make up the view; so do their
    status counts, for every status. *)
Theorem amk_akp_split (view : DataFrame) (s : string) :
  (forall r, In r (amk view) -> ~ In r (akp view))
  /\ List.length (amk view) + List.length (akp view)
     + List.length (filter (fun r => negb (cell_eq (agency r) "AMK")
                                     && negb (cell_eq (agency r) "AKP")) view)
     = List.length view
  /\ status_count s (amk view) + status_count s (akp view) <= status_count s view.
Proof.
  split; [|split].
  - intros r H1 H2. unfold amk, akp in *.
    apply filter_In in H1, H2. destruct H1 as [_ H1], H2 as [_ H2].
    apply cell_eq_Some in H1, H2. rewrite H1 in H2. discriminate.
  - unfold amk, akp. induction view as [|r view IH]; simpl; [reflexivity|].
    destruct (agency r) as [a|]; simpl; [|lia].
    destruct (String.eqb_spec a "AMK") as [->|H1]; simpl; [lia|].
    destruct (String.eqb a "AKP"); simpl; lia.
  - unfold amk, akp, status_count.
    induction view as [|r view IH]; simpl; [lia|].
    destruct (agency r) as [a|]; simpl.
    + destruct (String.eqb_spec a "AMK") as [->|H1]; simpl.
      * destruct (cell_eq (recruitment_status r) s); simpl; lia.
      * destruct (String.eqb a "AKP"); simpl;
          destruct (cell_eq (recruitment_status r) s); simpl; lia.
    + destruct (cell_eq (recruitment_status r) s); simpl; lia.
Qed.



(** ** More on the KPI *)

(** X7: the KPI never exceeds 1 and stays above -99, whatever the subset. *)
Theorem fulfillment_range (data : DataFrame) :
  (-99 < fulfillment data /\ fulfillment data <= 1)%Q.
Proof.
  unfold fulfillment.
  set (o := status_count "OPEN" data). set (r := status_count "RECRUIT" data).
  destruct (0 <? o) eqn:Ho; [|split; [reflexivity|discriminate]].
  apply Nat.ltb_lt in Ho.
  assert (Hd : (0 < Qnat (r + o))%Q) by (apply Qnat_pos; lia).
  assert (H0 : (0 <= Qnat r / Qnat (r + o))%Q).
  { apply Qle_shift_div_l; [exact Hd|]. rewrite Qmult_0_l. apply Qnat_nonneg. }
  assert (H1 : (Qnat r / Qnat (r + o) < 1)%Q).
  { apply Qlt_shift_div_r; [exact Hd|]. rewrite Qmult_1_l.
    unfold Qnat. rewrite <- Zlt_Qlt. lia. }
  set (x := (Qnat r / Qnat (r + o))%Q) in *.
  split; lra.
Qed.

Lemma status_count_counted (s : string) (data : DataFrame) :
  s = "OPEN" \/ s = "RECRUIT" ->
  status_count s (filter counted_status data) = status_count s data.
Proof.
  intros Hs. unfold status_count. rewrite filter_twice. f_equal.
  apply filter_ext. intros r. unfold counted_status.
  destruct (recruitment_status r) as [t|]; simpl; [|reflexivity].
  destruct (String.eqb_spec t s) as [->|Hne]; [|apply andb_false_r].
  destruct Hs as [->| ->]; reflexivity.
Qed.

(** X8: rows whose status is missing or is neither OPEN nor RECRUIT play
    no part in the KPI: dropping them leaves its value unchanged. *)
Theorem fulfillment_ignores_other_statuses (data : DataFrame) :
  fulfillment (filter counted_status data) = fulfillment data.
Proof.
  unfold fulfillment.
  now rewrite !status_count_counted by auto.
Qed.

(** ** More on the grouped counts *)

Section AscendingTables.
Context {K : Type} (cmp : K -> K -> comparison).
Hypothesis cmp_refl : forall a, cmp a a = Eq.
Hypothesis cmp_trans : forall a b c, cmp a b = Lt -> cmp b c = Lt -> cmp a c = Lt.

Lemma ascending_head_below (k : K) (n : nat) (rest : list (K * nat)) (e : K * nat) :
  keys_ascending cmp ((k, n) :: rest) -> In e rest -> cmp k (fst e) = Lt.
Proof.
  unfold keys_ascending. simpl. intros Hs Hin.
  apply StronglySorted_inv in Hs. destruct Hs as [_ Hall].
  rewrite Forall_forall in Hall. apply Hall. now apply in_map.
Qed.

Lemma ascending_tail (e : K * nat) (rest : list (K * nat)) :
  keys_ascending cmp (e :: rest) -> keys_ascending cmp rest.
Proof.
  unfold keys_ascending. simpl. intros Hs.
  now apply StronglySorted_inv in Hs.
Qed.

(** Two tables with ascending keys and the same entries are the same list. *)
Lemma ascending_ext (l1 l2 : list (K * nat)) :
  keys_ascending cmp l1 -> keys_ascending cmp l2 ->
  (forall e, In e l1 <-> In e l2) -> l1 = l2.
Proof.
  revert l2. induction l1 as [|[k1 n1] t1 IH]; intros [|[k2 n2] t2] H1 H2 Hext.
  - reflexivity.
  - exfalso. apply (proj2 (Hext (k2, n2))). now left.
  - exfalso. apply (proj1 (Hext (k1, n1))). now left.
  - assert (Hirr : forall a, cmp a a <> Lt).
    { intros a. rewrite cmp_refl. discriminate. }
    assert (Hhead : (k1, n1) = (k2, n2)).
    { destruct (proj1 (Hext (k1, n1)) (or_introl eq_refl)) as [E|Hin1]; [now symmetry|].
      destruct (proj2 (Hext (k2, n2)) (or_introl eq_refl)) as [E|Hin2]; [exact E|].
      exfalso. apply (Hirr k1).
      apply (cmp_trans k1 k2 k1).
      - exact (ascending_head_below k1 n1 t1 (k2, n2) H1 Hin2).
      - exact (ascending_head_below k2 n2 t2 (k1, n1) H2 Hin1). }
    injection Hhead as -> ->. f_equal.
    apply IH; [exact (ascending_tail _ _ H1)|exact (ascending_tail _ _ H2)|].
    intros e. split; intros Hin.
    + destruct (proj1 (Hext e) (or_intror Hin)) as [<-|H]; [|exact H].
      exfalso. apply (Hirr k2).
      exact (ascending_head_below k2 n2 t1 (k2, n2) H1 Hin).
    + destruct (proj2 (Hext e) (or_intror Hin)) as [<-|H]; [|exact H].
      exfalso. apply (Hirr k2).
      exact (ascending_head_below k2 n2 t2 (k2, n2) H2 Hin).
Qed.
End AscendingTables.

Lemma filter_length_perm {A : Type} (f : A -> bool) (l l' : list A) :
  Permutation l l' -> List.length (filter f l) = List.length (filter f l').
Proof.
  intros HP. induction HP as [|x l l' HP IH|x y l|l l' l'' HP1 IH1 HP2 IH2]; simpl.
  - reflexivity.
  - destruct (f x); simpl; now rewrite IH.
  - destruct (f x), (f y); reflexivity.
  - now rewrite IH1.
Qed.

(** An entry is emitted exactly for a key held by some row, with the
    number of rows holding that key. *)
Lemma groupby_size_In (c1 c2 : column) (data : DataFrame) (k : key2) (n : nat) :
  In (k, n) (groupby_size c1 c2 data)
  <-> (exists r, In r data /\ group_key c1 c2 r = Some k)
      /\ n = List.length (filter (selects c1 c2 (key_is (fst k) (snd k))) data).
Proof.
  assert (Hnd : NoDup (map fst (groupby_size c1 c2 data)))
    by apply (ascending_NoDup compare2 compare2_refl), groupby_size_ascending.
  assert (Hspec : forall x, key_is (fst k) (snd k) x = true <-> x = k).
  { intros x. rewrite key_is_spec. now destruct k. }
  split.
  - intros Hin. split.
    + apply groupby_size_keys. now apply (in_map fst) in Hin.
    + rewrite <- groupby_size_weight. symmetry.
      exact (weight_entry _ k n _ Hnd Hspec Hin).
  - intros [Hk Hn].
    apply groupby_size_keys, in_map_iff in Hk.
    destruct Hk as [[k' m] [Hfst Hin]]. simpl in Hfst. subst k'.
    rewrite <- groupby_size_weight in Hn.
    rewrite (weight_entry _ k m _ Hnd Hspec Hin) in Hn. now subst.
Qed.

Lemma groupby_size_perm (c1 c2 : column) (d1 d2 : DataFrame) :
  Permutation d1 d2 -> groupby_size c1 c2 d1 = groupby_size c1 c2 d2.
Proof.
  intros HP.
  apply (ascending_ext compare2 compare2_refl compare2_trans);
    try apply groupby_size_ascending.
  intros [k n]. rewrite !groupby_size_In.
  rewrite (filter_length_perm _ _ _ HP).
  split; intros [[r [Hr Hk]] Hn]; (split; [exists r; split; [|exact Hk]|exact Hn]).
  - exact (Permutation_in _ HP Hr).
  - exact (Permutation_in _ (Permutation_sym HP) Hr).
Qed.

(** X9: the rows of the grouped counts come in strictly ascending order
    of (group, status), compared as pairs of strings; no pair is emitted
    twice. *)
Theorem grouped_counts_ascending (c : column) (data : DataFrame) :
  keys_ascending compare2 (groupby_size c Recruitment_Status data)
  /\ NoDup (map fst (groupby_size c Recruitment_Status data))
  /\ keys_ascending compare2 (principle_chart data).
Proof.
  split; [apply groupby_size_ascending|].
  split; [|apply groupby_size_ascending].
  apply (ascending_NoDup compare2 compare2_refl), groupby_size_ascending.
Qed.

(** X10: the aggregations do not depend on the order of the rows: two
    subsets with the same rows in a different order give the same grouped
    counts, the same display order and the same regional table. *)
Theorem aggregations_ignore_row_order (d1 d2 : DataFrame) :
  Permutation d1 d2 ->
  principle_chart d1 = principle_chart d2
  /\ order d1 = order d2
  /\ regional_chart d1 = regional_chart d2.
Proof.
  intros HP.
  assert (E1 : principle_chart d1 = principle_chart d2)
    by (unfold principle_chart; now apply groupby_size_perm).
  split; [exact E1|]. split.
  - unfold order. now rewrite E1.
  - unfold regional_chart.
    now rewrite (groupby_size_perm Regional Recruitment_Status d1 d2 HP).
Qed.

Lemma aggregations_ignore_row_order_witness :
  principle_chart (rev sample10) = principle_chart sample10
  /\ order (rev sample10) = order sample10
  /\ regional_chart (rev sample10) = regional_chart sample10.
Proof.
  apply (aggregations_ignore_row_order (rev sample10) sample10).
  apply Permutation_sym, Permutation_rev.
Defined.

(** X11: the chart has one slot per emitted Principle; it is at least
    1600 wide and gives every Principle at least 140, and it is wider
    than 1600 exactly when there are 12 Principles or more. *)
Theorem chart_width_bounds (data : DataFrame) :
  num_principle data = List.length (index_of (principle_chart data))
  /\ 1600 <= chart_width data
  /\ num_principle data * 140 <= chart_width data
  /\ (chart_width data = 1600 <-> num_principle data <= 11)
  /\ (12 <= num_principle data -> chart_width data = num_principle data * 140).
Proof.
  unfold chart_width, num_principle.
  split; [symmetry; apply Permutation_length, order_perm|].
  set (n := List.length (order data)). lia.
Qed.

(** X12: the bars of one status add up to the number of rows of that
    status among the rows that have a Principle; when no Principle is
    missing this is the count that the KPI uses. *)
Theorem bars_add_up_to_status_count (s : string) (data : DataFrame) :
  weight (fun k : key2 => String.eqb (snd k) s) (principle_chart data)
  = status_count s (filter (fun r => present (principle r)) data).
Proof.
  unfold principle_chart. rewrite groupby_size_weight.
  unfold status_count. rewrite filter_twice. f_equal.
  apply filter_ext. intros r. unfold selects, group_key. simpl.
  destruct (principle r); simpl; [|reflexivity].
  now destruct (recruitment_status r).
Qed.

(** ** More on the per-region table *)

Lemma regional_chart_collision (data : DataFrame) :
  status_named_Regional data -> regional_chart data = ValueError.
Proof.
  intros H. apply Regional_column in H.
  unfold regional_chart. now rewrite H.
Qed.

Lemma regional_chart_counted (data : DataFrame) :
  ~ status_named_Regional data ->
  (exists r, In r data /\ present (regional r) = true /\ counted_status r = true) ->
  regional_chart data
  = Ok (map (fun g => (g, percentage (group_status_count Regional g "OPEN" data)
                                     (group_status_count Regional g "RECRUIT" data)))
            (index_of (groupby_size Regional Recruitment_Status data))).
Proof.
  intros Hreg [r [Hr [Hp Hs]]].
  apply regional_chart_table; [now apply no_Regional_column|].
  apply orb_true_iff.
  unfold counted_status in Hs. apply orb_true_iff in Hs.
  destruct Hs as [Hs|Hs]; apply cell_eq_Some in Hs; [right|left];
    apply (column_present Regional); exists r; now repeat split.
Qed.

Lemma regional_chart_uncounted (data : DataFrame) :
  ~ status_named_Regional data ->
  ~ (exists r, In r data /\ present (regional r) = true /\ counted_status r = true) ->
  regional_chart data = ZeroDivisionError.
Proof.
  intros Hreg Hnone.
  assert (Habs : forall name, name = "OPEN" \/ name = "RECRUIT" ->
            existsb (String.eqb name)
              (columns_of (groupby_size Regional Recruitment_Status data)) = false).
  { intros name Hname. apply not_true_is_false. intros E.
    apply (column_present Regional) in E. destruct E as [r [Hr [Hp Hs]]].
    apply Hnone. exists r. repeat split; try assumption.
    unfold counted_status. rewrite Hs. destruct Hname as [->| ->]; reflexivity. }
  unfold regional_chart, temp_get.
  rewrite (no_Regional_column data Hreg).
  rewrite (Habs "RECRUIT") by auto. rewrite (Habs "OPEN") by auto.
  reflexivity.
Qed.

(** The three outcomes of [regional_chart], by the rows of the subset. *)
Lemma regional_chart_outcome (data : DataFrame) :
  (status_named_Regional data /\ regional_chart data = ValueError)
  \/ (~ status_named_Regional data
      /\ (exists r, In r data /\ present (regional r) = true /\ counted_status r = true)
      /\ regional_chart data
         = Ok (map (fun g => (g, percentage (group_status_count Regional g "OPEN" data)
                                            (group_status_count Regional g "RECRUIT" data)))
                   (index_of (groupby_size Regional Recruitment_Status data))))
  \/ (~ status_named_Regional data
      /\ ~ (exists r, In r data /\ present (regional r) = true /\ counted_status r = true)
      /\ regional_chart data = ZeroDivisionError).
Proof.
  destruct (existsb (String.eqb "Regional")
              (columns_of (groupby_size Regional Recruitment_Status data))) eqn:EG.
  - left. apply Regional_column in EG.
    split; [exact EG|now apply regional_chart_collision].
  - assert (Hreg : ~ status_named_Regional data).
    { intros H. apply Regional_column in H. congruence. }
    right.
    destruct (existsb (fun r => present (regional r) && counted_status r) data) eqn:EC.
    + left. apply existsb_exists in EC. destruct EC as [r [Hr Hb]].
      apply andb_true_iff in Hb. destruct Hb as [Hp Hs].
      assert (Hc : exists r, In r data /\ present (regional r) = true
                             /\ counted_status r = true) by (exists r; auto).
      split; [exact Hreg|]. split; [exact Hc|now apply regional_chart_counted].
    + right.
      assert (Hnone : ~ (exists r, In r data /\ present (regional r) = true
                                   /\ counted_status r = true)).
      { intros [r [Hr [Hp Hs]]].
        assert (E : existsb (fun r => present (regional r) && counted_status r) data = true).
        { apply existsb_exists. exists r. split; [exact Hr|]. now rewrite Hp, Hs. }
        congruence. }
      split; [exact Hreg|]. split; [exact Hnone|now apply regional_chart_uncounted].
Qed.

(** X13: [regional_chart] raises ValueError exactly when some row with a
    region carries the text "Regional" as its status, and it raises
    ZeroDivisionError exactly when there is no such row and no row with a
    region is OPEN or RECRUIT; the latter includes the empty subset. *)
Theorem regional_chart_raises_iff (data : DataFrame) :
  (regional_chart data = ValueError <-> status_named_Regional data)
  /\ (regional_chart data = ZeroDivisionError
      <-> ~ status_named_Regional data
          /\ ~ exists r, In r data /\ present (regional r) = true
                          /\ counted_status r = true).
Proof.
  destruct (regional_chart_outcome data)
    as [[Hreg E]|[[Hreg [Hc E]]|[Hreg [Hc E]]]]; rewrite E; split; split;
    try discriminate; try tauto.
Qed.

Lemma percentage_in_range (o r : nat) : in_range (percentage o r).
Proof.
  unfold percentage. destruct (o + r =? 0) eqn:E; simpl; [exact I|].
  apply Nat.eqb_neq in E.
  assert (Hd : (0 < Qnat (o + r))%Q) by (apply Qnat_pos; lia).
  assert (H0 : (0 <= Qnat r / Qnat (o + r))%Q).
  { apply Qle_shift_div_l; [exact Hd|]. rewrite Qmult_0_l. apply Qnat_nonneg. }
  assert (H1 : (Qnat r / Qnat (o + r) <= 1)%Q).
  { apply Qle_shift_div_r; [exact Hd|]. rewrite Qmult_1_l. apply Qnat_le. lia. }
  set (x := (Qnat r / Qnat (o + r))%Q) in *.
  split; lra.
Qed.

(** X14: when [regional_chart] produces its table, the regions come in
    strictly ascending order and every percentage is either undefined or
    lies between 0 and 100; it is never infinite. *)
Theorem regional_table_sorted_in_range (data : DataFrame) (temp : list (string * float)) :
  regional_chart data = Ok temp ->
  StronglySorted (key_lt String.compare) (map fst temp)
  /\ Forall (fun e => in_range (snd e)) temp.
Proof.
  intros E.
  destruct (regional_chart_outcome data)
    as [[_ E']|[[_ [_ E']]|[_ [_ E']]]]; rewrite E' in E; try discriminate.
  injection E as <-.
  split.
  - rewrite map_map. simpl. rewrite map_id.
    unfold index_of, groupby_sum.
    apply (sum_fold_ascending fst). constructor.
  - apply Forall_forall. intros e Hin. apply in_map_iff in Hin.
    destruct Hin as [g [<- _]]. simpl. apply percentage_in_range.
Qed.

Lemma regional_table_sorted_in_range_witness :
  StronglySorted (key_lt String.compare)
    (map fst [("East", Fin (100 # 4)); ("North", Fin (100 # 2)); ("West", Fin (200 # 4))])
  /\ Forall (fun e => in_range (snd e))
       [("East", Fin (100 # 4)); ("North", Fin (100 # 2)); ("West", Fin (200 # 4))].
Proof.
  apply (regional_table_sorted_in_range sample10). reflexivity.
Defined.

(** X15: once a Principle is selected, the overview chart shows no other
    Principle, and keeps its minimal width. *)
Theorem selected_principle_only (df : DataFrame) (sel : Selection) (g : string) :
  sel_principle sel <> "All" ->
  In g (order (filtered df (filters sel))) ->
  g = sel_principle sel /\ chart_width (filtered df (filters sel)) = 1600.
Proof.
  intros Hne Hin.
  assert (Honly : forall h, In h (order (filtered df (filters sel))) ->
                            h = sel_principle sel).
  { intros h Hh.
    apply (Permutation_in _ (Permutation_sym (order_perm _))) in Hh.
    apply (index_groups Principle) in Hh. destruct Hh as [r [Hr [Hp _]]].
    assert (Hsel : get r Principle = Some (sel_principle sel)).
    { apply (filtered_rows_match df (filters sel) Principle (sel_principle sel) r);
        [right; now left|exact Hne|exact Hr]. }
    congruence. }
  split; [now apply Honly|].
  assert (Hnd : NoDup (order (filtered df (filters sel)))).
  { apply (Permutation_NoDup (order_perm _)), groupby_sum_NoDup. }
  unfold chart_width, num_principle.
  destruct (order (filtered df (filters sel))) as [|a [|b l]]; simpl; try lia.
  exfalso. inversion Hnd as [|x l' Hnotin _]; subst. apply Hnotin.
  rewrite (Honly a) by now left. left. apply Honly. right. now left.
Qed.

Lemma selected_principle_only_witness :
  "P2" = "P2"
  /\ chart_width
       (filtered sample10 (filters (mkSelection "All" "P2" "All" "All" "All" "All")))
     = 1600.
Proof.
  apply (selected_principle_only sample10
           (mkSelection "All" "P2" "All" "All" "All" "All") "P2").
  - discriminate.
  - vm_compute. auto.
Defined.
